(** * A shallow embedding of simple-pdf-generator

    [src/utils/text_processor.py] ([extract_structure]) and
    [src/utils/pdf_generator.py] ([PDFGenerator]).

    A Python [str] is a sequence of Unicode code points; it is modelled as
    [list N], one code point per element. *)

From Stdlib Require Import List NArith ZArith String Ascii Bool Lia.
Import ListNotations.

Open Scope N_scope.

(** ** Python strings *)

Definition text := list N.

(** ASCII string literals as code-point lists. *)
Fixpoint s2t (s : string) : text :=
  match s with
  | EmptyString => []
  | String a s' => N_of_ascii a :: s2t s'
  end.

Fixpoint text_eqb (a b : text) : bool :=
  match a, b with
  | [], [] => true
  | x :: a', y :: b' => (x =? y) && text_eqb a' b'
  | _, _ => false
  end.

(** [s.startswith(p)] *)
Fixpoint startswith (s p : text) : bool :=
  match p, s with
  | [], _ => true
  | c :: p', d :: s' => (c =? d) && startswith s' p'
  | _ :: _, [] => false
  end.

(** [str.isspace] for one code point (the characters Python strips). *)
Definition is_space (c : N) : bool :=
  ((9 <=? c) && (c <=? 13)) || ((28 <=? c) && (c <=? 32)) ||
  (c =? 133) || (c =? 160) || (c =? 5760) ||
  ((8192 <=? c) && (c <=? 8202)) || (c =? 8232) || (c =? 8233) ||
  (c =? 8239) || (c =? 8287) || (c =? 12288).

Fixpoint lstrip (s : text) : text :=
  match s with
  | [] => []
  | c :: s' => if is_space c then lstrip s' else s
  end.

(** [s.strip()] *)
Definition strip (s : text) : text := rev (lstrip (rev (lstrip s))).

(** [s.split('\n')] *)
Fixpoint split_nl_aux (s : text) (cur : text) : list text :=
  match s with
  | [] => [rev cur]
  | c :: s' => if c =? 10 then rev cur :: split_nl_aux s' [] else split_nl_aux s' (c :: cur)
  end.

Definition split_nl (s : text) : list text := split_nl_aux s [].

(** [sep.join(xs)] *)
Fixpoint join (sep : text) (xs : list text) : text :=
  match xs with
  | [] => []
  | [x] => x
  | x :: xs' => x ++ sep ++ join sep xs'
  end.

(** [s.replace(old, new)]: all non-overlapping occurrences, left to right.
    Each step consumes at least one code point, so [length s + 1] steps
    suffice; an empty [old] inserts [new] around every code point. *)
Fixpoint replace_fuel (fuel : nat) (old new s : text) : text :=
  match fuel with
  | O => s
  | S f =>
      match s with
      | [] => []
      | c :: s' =>
          if startswith s old
          then new ++ replace_fuel f old new (skipn (List.length old) s)
          else c :: replace_fuel f old new s'
      end
  end.

Definition py_replace (old new s : text) : text :=
  match old with
  | [] => new ++ flat_map (fun c => c :: new) s
  | _ => replace_fuel (S (List.length s)) old new s
  end.

(** ** [PDFGenerator.char_replacements]

    The dictionary literal as Python reads it.  The two smart-quote lines
    are written with ASCII apostrophes, so the three apostrophes that open
    the first of them start a triple-quoted string, which ends at the three
    apostrophes that open the second: the key is the 43-character ASCII
    text [smart_quote_key] (a colon, a space, double quote, apostrophe,
    double quote, a comma, two spaces, the comment [# Replace smart quotes],
    a newline and twelve spaces) and its value is one apostrophe.  The two
    following lines both map the ASCII double quote (code 34) to itself
    and give one key (a repeated key keeps its first position). *)
Definition smart_quote_key : text :=
  [58; 32; 34; 39; 34; 44; 32; 32; 35; 32] ++ s2t "Replace smart quotes" ++
  [10] ++ repeat 32 12.

Definition char_replacements : list (text * text) :=
  [ ([8226], s2t "-");            (* bullet *)
    ([8211], s2t "-");            (* en dash *)
    ([8212], s2t "-");            (* em dash *)
    (smart_quote_key, s2t "'");
    ([34], [34]);
    ([8230], s2t "...");          (* ellipsis *)
    ([8804], s2t "<=");
    ([8805], s2t ">=");
    ([169], s2t "(c)");
    ([174], s2t "(R)");
    ([8482], s2t "(TM)");
    ([176], s2t " degrees");
    ([177], s2t "+/-");
    ([215], s2t "x");
    ([247], s2t "/");
    ([189], s2t "1/2");
    ([188], s2t "1/4");
    ([190], s2t "3/4") ].

(** [dict.get(key)] *)
Fixpoint dict_get (d : list (text * text)) (k : text) : option text :=
  match d with
  | [] => None
  | (k', v) :: d' => if text_eqb k k' then Some v else dict_get d' k
  end.

(** ** [PDFGenerator.sanitize_text] *)

(** First loop: [text = text.replace(char, replacement)] per item. *)
Definition replace_known (s : text) : text :=
  fold_left (fun t kv => py_replace (fst kv) (snd kv) t) char_replacements s.

(** Second loop, one code point. *)
Definition sanitize_char (c : N) : text :=
  if c <? 128 then [c]
  else match dict_get char_replacements [c] with
       | Some r => r
       | None => [32]
       end.

Definition sanitize_text (s : text) : text :=
  flat_map sanitize_char (replace_known s).

Definition is_ascii (s : text) : Prop := Forall (fun c => c < 128) s.

(** ** [extract_structure] *)

(** [{'level': level, 'text': heading_text}] *)
Record heading := { h_level : Z; h_text : text }.

(** The returned dictionary [{'headings': [...], 'paragraphs': [...],
    'lists': [...]}]. *)
Record structure := {
  headings : list heading;
  paragraphs : list text;
  lists : list (list text) }.

(** The loop variables of [extract_structure]. *)
Record scan := {
  sc_structure : structure;
  current_paragraph : list text;
  in_list : bool;
  list_items : list text }.

Definition empty_structure : structure :=
  {| headings := []; paragraphs := []; lists := [] |}.

Definition add_heading_entry (st : structure) (h : heading) : structure :=
  {| headings := headings st ++ [h]; paragraphs := paragraphs st; lists := lists st |}.

Definition add_paragraph_entry (st : structure) (p : text) : structure :=
  {| headings := headings st; paragraphs := paragraphs st ++ [p]; lists := lists st |}.

Definition add_list_entry (st : structure) (l : list text) : structure :=
  {| headings := headings st; paragraphs := paragraphs st; lists := lists st ++ [l] |}.

(** [if current_paragraph: structure['paragraphs'].append(' '.join(...)); current_paragraph = []] *)
Definition flush_paragraph (st : structure) (cp : list text) : structure :=
  match cp with
  | [] => st
  | _ => add_paragraph_entry st (join (s2t " ") cp)
  end.

(** [if in_list: structure['lists'].append(list_items); list_items = []; in_list = False] *)
Definition flush_list (st : structure) (il : bool) (items : list text) : structure :=
  if il then add_list_entry st items else st.

(** The heading-level loop: count the leading ['#'] characters. *)
Fixpoint count_hashes (s : text) : nat :=
  match s with
  | c :: s' => if c =? 35 then S (count_hashes s') else O
  | [] => O
  end.

Definition is_list_line (line : text) : bool :=
  startswith line (s2t "- ") || startswith line (s2t "* ") || startswith line (s2t "+ ").

(** One iteration of [for line in lines]. *)
Definition scan_line (sc : scan) (raw : text) : scan :=
  let line := strip raw in
  let st := sc_structure sc in
  let cp := current_paragraph sc in
  let il := in_list sc in
  let items := list_items sc in
  if startswith line (s2t "#") then
    let st1 := flush_paragraph st cp in
    let st2 := flush_list st1 il items in
    let level := count_hashes line in
    let heading_text := strip (skipn level line) in
    {| sc_structure := add_heading_entry st2 {| h_level := Z.of_nat level; h_text := heading_text |};
       current_paragraph := []; in_list := false;
       list_items := if il then [] else items |}
  else if is_list_line line then
    {| sc_structure := flush_paragraph st cp; current_paragraph := [];
       in_list := true; list_items := items ++ [strip (skipn 2 line)] |}
  else match line with
  | [] =>
    {| sc_structure := flush_list (flush_paragraph st cp) il items;
       current_paragraph := []; in_list := false;
       list_items := if il then [] else items |}
  | _ =>
    {| sc_structure := flush_list st il items;
       current_paragraph := cp ++ [line]; in_list := false;
       list_items := if il then [] else items |}
  end.

Definition scan_init : scan :=
  {| sc_structure := empty_structure; current_paragraph := []; in_list := false; list_items := [] |}.

(** [# Add any remaining content] *)
Definition scan_finish (sc : scan) : structure :=
  flush_list (flush_paragraph (sc_structure sc) (current_paragraph sc)) (in_list sc) (list_items sc).

Definition extract_structure (t : text) : structure :=
  scan_finish (fold_left scan_line (split_nl t) scan_init).

(** ** The renderer: [PDFGenerator] over an fpdf backend

    The FPDF object is modelled by the list of drawing commands issued to
    it.  A backend call may raise (fpdf refuses a command); [accepts] says
    which commands the backend takes.  Console output ([print]) is not
    modelled. *)

Inductive cmd :=
| SetAutoPageBreak (auto : bool) (margin : Z)
| AddPage
| SetFont (family style : string) (size : Z)
| Ln (h : Z)
| Cell (w h : Z) (txt : text) (ln : Z)
| MultiCell (w h : Z) (txt : text).

Definition doc := list cmd.

(** Python exceptions the renderer meets. *)
Inductive exn := BackendError | ContentError | DestinationError.

Inductive outcome (A : Type) := Ok (a : A) | Raise (e : exn).
Arguments Ok {A} a.
Arguments Raise {A} e.

(** State and exceptions over the document being built. *)
Definition M (A : Type) := doc -> outcome A * doc.

Definition ret {A} (a : A) : M A := fun d => (Ok a, d).

Definition bind {A B} (m : M A) (k : A -> M B) : M B :=
  fun d => match m d with
           | (Ok a, d') => k a d'
           | (Raise e, d') => (Raise e, d')
           end.

Notation "x <- m ;; k" := (bind m (fun x => k)) (at level 61, m at next level, right associativity).
Notation "m ;;; k" := (bind m (fun _ => k)) (at level 61, right associativity).

(** [try: m except Exception: handler] *)
Definition try_except {A} (m : M A) (handler : exn -> M A) : M A :=
  fun d => match m d with
           | (Raise e, d') => handler e d'
           | r => r
           end.

(** [for x in xs: body(x)] *)
Fixpoint for_ {X} (xs : list X) (body : X -> M unit) : M unit :=
  match xs with
  | [] => ret tt
  | x :: xs' => body x ;;; for_ xs' body
  end.

(** [self.heading_sizes] *)
Definition heading_sizes : list (Z * Z) :=
  [(1, 24); (2, 20); (3, 16); (4, 14); (5, 12); (6, 12)]%Z.

(** [self.heading_sizes.get(level, default)] *)
Fixpoint heading_sizes_get (tbl : list (Z * Z)) (level default : Z) : Z :=
  match tbl with
  | [] => default
  | (k, v) :: tbl' => if Z.eqb k level then v else heading_sizes_get tbl' level default
  end.

(** [str(n)] for a Python [int]. *)
Fixpoint digits_aux (fuel : nat) (n : N) (acc : text) : text :=
  match fuel with
  | O => acc
  | S f =>
      let acc' := (48 + n mod 10) :: acc in
      if n / 10 =? 0 then acc' else digits_aux f (n / 10) acc'
  end.

Definition int_to_text (z : Z) : text :=
  let body := digits_aux (S (N.size_nat (Z.abs_N z))) (Z.abs_N z) [] in
  if (z <? 0)%Z then 45 :: body else body.

(** fpdf's style argument for the regular (neither bold nor italic) face,
    the empty string. *)
Definition regular : string := EmptyString.

Section Renderer.

Variable accepts : cmd -> bool.

(** One call into the fpdf object. *)
Definition emit (c : cmd) : M unit :=
  fun d => if accepts c then (Ok tt, d ++ [c]) else (Raise BackendError, d).

Definition set_font (family style : string) (size : Z) : M unit :=
  emit (SetFont family style size).

(** [PDFGenerator.add_heading] *)
Definition add_heading (txt : text) (level : Z) : M unit :=
  let size := heading_sizes_get heading_sizes level 12 in
  set_font "Arial" "B" size ;;;
  emit (Ln 10) ;;;
  let safe_text := sanitize_text txt in
  try_except (emit (Cell 0 10 safe_text 1))
    (fun _ => emit (Cell 0 10 (s2t "Heading level " ++ int_to_text level) 1)) ;;;
  emit (Ln 5) ;;;
  set_font "Arial" regular 12.

(** [PDFGenerator.add_paragraph] *)
Definition add_paragraph (txt : text) : M unit :=
  set_font "Arial" regular 12 ;;;
  let safe_text := sanitize_text txt in
  try_except (emit (MultiCell 0 10 safe_text))
    (fun _ => emit (MultiCell 0 10 (s2t "[Text contains unsupported characters]"))) ;;;
  emit (Ln 5).

(** [PDFGenerator.add_list] *)
Definition add_list (items : list text) : M unit :=
  set_font "Arial" regular 12 ;;;
  for_ items (fun item =>
    emit (Cell 10 10 (s2t "-") 0) ;;;
    let safe_item := sanitize_text item in
    try_except (emit (MultiCell 0 10 safe_item))
      (fun _ => emit (MultiCell 0 10 (s2t "[Item contains unsupported characters]")))).

(** [PDFGenerator.add_content_from_structure] *)
Definition add_content_from_structure (st : structure) : M unit :=
  for_ (headings st) (fun h => add_heading (h_text h) (h_level h)) ;;;
  for_ (paragraphs st) add_paragraph ;;;
  for_ (lists st) add_list.

End Renderer.

(** ** [PDFGenerator.generate_pdf]

    The file system maps paths to files.  fpdf's [FPDF.output] (library
    code) writes the document when the destination is writable and the
    document can be serialised, and raises otherwise; which destinations
    are writable and which documents serialise is left open
    ([dest_ok], [content_ok]), as is the name [tempfile.mkstemp] picks. *)

Definition path := string.

Inductive file := EmptyFile | PdfFile (d : doc).

Definition fsys := path -> option file.

Definition write (fs : fsys) (p : path) (f : file) : fsys :=
  fun q => if String.eqb q p then Some f else fs q.

(** The two explanatory lines of the error document. *)
Definition error_line1 : text := s2t "Error generating PDF with the provided content.".
Definition error_line2 : text := s2t "The content may contain unsupported characters.".

Section Generate.

Variable accepts : cmd -> bool.
Variable dest_ok : path -> bool.
Variable content_ok : doc -> bool.
Variable mkstemp : fsys -> path.

(** [FPDF.output(path)] *)
Definition output (d : doc) (p : path) (fs : fsys) : outcome unit * fsys :=
  if dest_ok p then
    if content_ok d then (Ok tt, write fs p (PdfFile d)) else (Raise ContentError, fs)
  else (Raise DestinationError, fs).

(** [error_pdf = FPDF(); add_page(); set_font(...); cell(...); cell(...)] *)
Definition build_error_pdf : M unit :=
  emit accepts AddPage ;;;
  set_font accepts "Arial" regular 12 ;;;
  emit accepts (Cell 0 10 error_line1 1) ;;;
  emit accepts (Cell 0 10 error_line2 1).

(** [if output_path is None: fd, output_path = tempfile.mkstemp(...); os.close(fd)] *)
Definition resolve_path (output_path : option path) (fs : fsys) : path * fsys :=
  match output_path with
  | Some p => (p, fs)
  | None => let p := mkstemp fs in (p, write fs p EmptyFile)
  end.

Definition generate_pdf (self_pdf : doc) (output_path : option path) (fs : fsys)
  : outcome path * fsys :=
  let (p, fs1) := resolve_path output_path fs in
  match output self_pdf p fs1 with
  | (Ok _, fs2) => (Ok p, fs2)
  | (Raise _, fs2) =>
      match build_error_pdf [] with
      | (Raise e, _) => (Raise e, fs2)
      | (Ok _, error_pdf) =>
          match output error_pdf p fs2 with
          | (Ok _, fs3) => (Ok p, fs3)
          | (Raise e, fs3) => (Raise e, fs3)
          end
      end
  end.

End Generate.

(** The document the error path writes when the backend takes its calls. *)
Definition error_doc : doc :=
  [AddPage; SetFont "Arial" regular 12; Cell 0 10 error_line1 1; Cell 0 10 error_line2 1].

(** The Block variant of the spec, used to state what an ordered reading
    of the extractor's output would have to produce. *)
Inductive block :=
| BHeading (level : Z) (t : text)
| BParagraph (t : text)
| BList (items : list text).

(** Commands each block emits when the backend takes every call. *)
Definition heading_cmds (h : heading) : doc :=
  [SetFont "Arial" "B" (heading_sizes_get heading_sizes (h_level h) 12); Ln 10;
   Cell 0 10 (sanitize_text (h_text h)) 1; Ln 5; SetFont "Arial" regular 12].

Definition paragraph_cmds (p : text) : doc :=
  [SetFont "Arial" regular 12; MultiCell 0 10 (sanitize_text p); Ln 5].

Definition list_cmds (items : list text) : doc :=
  SetFont "Arial" regular 12 ::
  flat_map (fun i => [Cell 10 10 (s2t "-") 0; MultiCell 0 10 (sanitize_text i)]) items.

(** Lines with no leading [#] or list marker and not empty, judged after
    [strip] as the extractor judges them, and judged on the raw line. *)
Definition plain_line (raw : text) : bool :=
  let l := strip raw in
  negb (text_eqb l []) && negb (startswith l (s2t "#")) && negb (is_list_line l).

Definition raw_plain_line (raw : text) : bool :=
  negb (text_eqb raw []) && negb (startswith raw (s2t "#")) && negb (is_list_line raw).

(** Sample inputs. *)
Definition nl : text := [10].
Definition list_par_heading : text := s2t "- x" ++ nl ++ s2t "y" ++ nl ++ s2t "## H".
Definition heading_par_list : text := s2t "## H" ++ nl ++ s2t "y" ++ nl ++ s2t "- x".
Definition cafe_input : text := s2t "caf" ++ [233] ++ s2t " " ++ [8211] ++ s2t " 50%".

(** ** [process_text], [add_text], [PDFGenerator.__init__] and the app *)

(** [process_text]: [text.strip()]. *)
Definition process_text (t : text) : text := strip t.

(** The placeholder texts of the [except] branches. *)
Definition paragraph_placeholder : text := s2t "[Text contains unsupported characters]".
Definition item_placeholder : text := s2t "[Item contains unsupported characters]".
Definition heading_placeholder (level : Z) : text := s2t "Heading level " ++ int_to_text level.

(** [PDFGenerator.add_text] *)
Definition add_text (accepts : cmd -> bool) (txt : text) : M unit :=
  let safe_text := sanitize_text txt in
  try_except (emit accepts (MultiCell 0 10 safe_text))
    (fun _ => emit accepts (MultiCell 0 10 (s2t "[Text contains unsupported characters]"))).

(** [PDFGenerator.__init__]: [FPDF()], [set_auto_page_break(auto=True,
    margin=15)], [add_page()], [set_font("Arial", size=12)]. *)
Definition pdf_init (accepts : cmd -> bool) : M unit :=
  emit accepts (SetAutoPageBreak true 15) ;;;
  emit accepts AddPage ;;;
  set_font accepts "Arial" regular 12.

(** The body of both [Generate PDF] buttons of [app.main], up to
    [generate_pdf]: markdown goes through [extract_structure], plain text
    through [process_text] and [add_text]. *)
Definition build_document (accepts : cmd -> bool) (is_markdown : bool) (input : text) : M unit :=
  pdf_init accepts ;;;
  if is_markdown then add_content_from_structure accepts (extract_structure input)
  else add_text accepts (process_text input).

(** [str.rfind(c)]: the index of the last [c], or -1. *)
Fixpoint rfind_from (c : N) (p : text) (i best : Z) : Z :=
  match p with
  | [] => best
  | x :: p' => rfind_from c p' (i + 1)%Z (if x =? c then i else best)
  end.

Definition rfind (c : N) (p : text) : Z := rfind_from c p 0 (-1).

(** [posixpath.splitext] ([genericpath._splitext] with [sep = '/'],
    [extsep = '.']): split at the last dot after the last slash, unless
    only dots precede it in the last component. *)
Definition splitext (p : text) : text * text :=
  let sepIndex := rfind 47 p in
  let dotIndex := rfind 46 p in
  if (sepIndex <? dotIndex)%Z then
    let between := firstn (Z.to_nat (dotIndex - (sepIndex + 1))) (skipn (Z.to_nat (sepIndex + 1)) p) in
    if existsb (fun c => negb (c =? 46)) between
    then (firstn (Z.to_nat dotIndex) p, skipn (Z.to_nat dotIndex) p)
    else (p, [])
  else (p, []).

(** [app.main], file tab: the download name is derived from the upload's
    name when the filename box still holds [output.pdf]. *)
Definition download_filename (pdf_filename uploaded_name : text) : text :=
  if text_eqb pdf_filename (s2t "output.pdf")
  then fst (splitext uploaded_name) ++ s2t ".pdf"
  else pdf_filename.

(** Kinds of source line, as [extract_structure] classifies them after
    [strip]. *)
Definition heading_line (raw : text) : bool := startswith (strip raw) (s2t "#").
Definition list_line (raw : text) : bool := is_list_line (strip raw).
Definition blank_line (raw : text) : bool := text_eqb (strip raw) [].

(** The heading a heading line yields. *)
Definition heading_of (raw : text) : heading :=
  let line := strip raw in
  {| h_level := Z.of_nat (count_hashes line); h_text := strip (skipn (count_hashes line) line) |}.

(** The item a list line yields. *)
Definition item_of (raw : text) : text := strip (skipn 2 (strip raw)).

(** [occurs k s]: [k in s] for a non-empty [k]. *)
Fixpoint occurs (k s : text) : bool :=
  startswith s k || match s with [] => false | _ :: s' => occurs k s' end.

(** Drawing commands that carry user text inside a [try] block. *)
Definition is_text_cell (c : cmd) : bool :=
  match c with
  | Cell _ _ _ _ | MultiCell _ _ _ => true
  | _ => false
  end.

(** What each renderer call draws when the backend may refuse text cells. *)
Definition heading_cmds_b (accepts : cmd -> bool) (h : heading) : doc :=
  let safe := sanitize_text (h_text h) in
  [SetFont "Arial" "B" (heading_sizes_get heading_sizes (h_level h) 12); Ln 10;
   Cell 0 10 (if accepts (Cell 0 10 safe 1) then safe else heading_placeholder (h_level h)) 1;
   Ln 5; SetFont "Arial" regular 12].

Definition paragraph_cmds_b (accepts : cmd -> bool) (p : text) : doc :=
  let safe := sanitize_text p in
  [SetFont "Arial" regular 12;
   MultiCell 0 10 (if accepts (MultiCell 0 10 safe) then safe else paragraph_placeholder);
   Ln 5].

Definition item_cmds_b (accepts : cmd -> bool) (i : text) : doc :=
  let safe := sanitize_text i in
  [Cell 10 10 (s2t "-") 0;
   MultiCell 0 10 (if accepts (MultiCell 0 10 safe) then safe else item_placeholder)].

Definition list_cmds_b (accepts : cmd -> bool) (items : list text) : doc :=
  SetFont "Arial" regular 12 :: flat_map (item_cmds_b accepts) items.

(** A backend that refuses only the cell whose text is [bad]. *)
Definition refuses_bad (c : cmd) : bool :=
  match c with
  | Cell _ _ t _ | MultiCell _ _ t => negb (text_eqb t (s2t "bad"))
  | _ => true
  end.

(** * Properties *)

(** ** Sanitisation *)

Lemma forallb_Forall_N (f : N -> Prop) (fb : N -> bool) (s : text) :
  (forall c, fb c = true -> f c) -> forallb fb s = true -> Forall f s.
Proof.
  intros Hf Hb. apply Forall_forall. intros c Hc.
  apply Hf. rewrite forallb_forall in Hb. auto.
Qed.

Lemma replacements_ascii :
  forallb (fun kv => forallb (fun c => c <? 128) (snd kv)) char_replacements = true.
Proof. vm_compute. reflexivity. Qed.

Lemma dict_get_ascii (tbl : list (text * text)) (k v : text) :
  forallb (fun kv => forallb (fun c => c <? 128) (snd kv)) tbl = true ->
  dict_get tbl k = Some v -> is_ascii v.
Proof.
  induction tbl as [|[k' v'] tbl IH]; simpl; intros Hb Hg; [discriminate|].
  apply andb_prop in Hb as [Hv Hrest].
  destruct (text_eqb k k').
  - injection Hg as <-. apply (forallb_Forall_N _ (fun c => c <? 128)); auto.
    intros c Hc. apply N.ltb_lt. exact Hc.
  - apply IH; auto.
Qed.

Lemma sanitize_char_ascii (c : N) : is_ascii (sanitize_char c).
Proof.
  unfold sanitize_char. destruct (c <? 128) eqn:E.
  - constructor; [apply N.ltb_lt; exact E | constructor].
  - destruct (dict_get char_replacements [c]) as [r|] eqn:G.
    + exact (dict_get_ascii _ _ _ replacements_ascii G).
    + constructor; [lia | constructor].
Qed.

(** C3: every code point of [sanitize_text s] is below 128. *)
Theorem sanitize_text_ascii (s : text) : is_ascii (sanitize_text s).
Proof.
  unfold sanitize_text, is_ascii. induction (replace_known s) as [|c t IH]; simpl.
  - constructor.
  - apply Forall_app. split; [apply sanitize_char_ascii | exact IH].
Qed.

(** C5: [sanitize_text] of [café – 50%] is [caf  - 50%]: the en dash
    becomes a hyphen and [é] a space. *)
Theorem sanitize_cafe : sanitize_text cafe_input = s2t "caf  - 50%".
Proof. vm_compute. reflexivity. Qed.

(** C4 (code bug): [sanitize_text] is not idempotent.  The input is
    [smart_quote_key] with its last space replaced by [é]; one pass turns
    [é] into a space and so yields the table key [smart_quote_key], which a
    second pass replaces by one apostrophe. *)
Lemma sanitize_not_idempotent :
  let s := removelast smart_quote_key ++ [233] in
  sanitize_text s = smart_quote_key /\
  sanitize_text (sanitize_text s) = s2t "'" /\
  sanitize_text (sanitize_text s) <> sanitize_text s.
Proof.
  intros s. split; [|split]; vm_compute; [reflexivity | reflexivity | discriminate].
Qed.

(** C9 (code bug): the ASCII text [smart_quote_key] is a key of the
    replacement table, so [sanitize_text] changes this ASCII input into a
    single apostrophe. *)
Theorem sanitize_ascii_key_changed :
  is_ascii smart_quote_key /\ sanitize_text smart_quote_key = s2t "'" /\
  sanitize_text smart_quote_key <> smart_quote_key.
Proof.
  split; [|split].
  - apply (forallb_Forall_N _ (fun c => c <? 128)); [intros c Hc; apply N.ltb_lt; exact Hc|].
    vm_compute. reflexivity.
  - vm_compute. reflexivity.
  - vm_compute. discriminate.
Qed.

(** ** Extraction *)

(** C1 (counterexample): the extractor groups blocks by kind.  The list,
    paragraph, heading input and the heading, paragraph, list input give
    the same structure, so no reading of that structure yields both source
    orders. *)
Lemma extract_structure_forgets_order :
  extract_structure list_par_heading = extract_structure heading_par_list /\
  ~ (exists blocks_of : structure -> list block,
       blocks_of (extract_structure list_par_heading) =
         [BList [s2t "x"]; BParagraph (s2t "y"); BHeading 2 (s2t "H")] /\
       blocks_of (extract_structure heading_par_list) =
         [BHeading 2 (s2t "H"); BParagraph (s2t "y"); BList [s2t "x"]]).
Proof.
  assert (E : extract_structure list_par_heading = extract_structure heading_par_list)
    by (vm_compute; reflexivity).
  split; [exact E|].
  intros [f [H1 H2]]. rewrite E, H2 in H1. discriminate.
Qed.

(** C1 (amended): for [- x / y / ## H] the extractor returns the heading
    [(2, H)], the paragraph [y] and the list [[x]], each in its own list. *)
Theorem extract_list_par_heading :
  extract_structure list_par_heading =
  {| headings := [{| h_level := 2; h_text := s2t "H" |}];
     paragraphs := [s2t "y"];
     lists := [[s2t "x"]] |}.
Proof. vm_compute. reflexivity. Qed.

Lemma split_nl_aux_not_nil (s cur : text) : split_nl_aux s cur <> [].
Proof.
  revert cur. induction s as [|c s IH]; intros cur; simpl; [discriminate|].
  destruct (c =? 10); [discriminate | apply IH].
Qed.

Lemma text_eqb_nil (l : text) : text_eqb l [] = true -> l = [].
Proof. destruct l; simpl; [reflexivity | discriminate]. Qed.

Lemma scan_plain_lines (ls : list text) (cp : list text) :
  forallb plain_line ls = true ->
  fold_left scan_line ls
    {| sc_structure := empty_structure; current_paragraph := cp;
       in_list := false; list_items := [] |} =
  {| sc_structure := empty_structure; current_paragraph := cp ++ map strip ls;
     in_list := false; list_items := [] |}.
Proof.
  revert cp. induction ls as [|raw ls IH]; intros cp Hb; simpl.
  - rewrite app_nil_r. reflexivity.
  - simpl in Hb. apply andb_prop in Hb as [Hl Hrest].
    unfold plain_line in Hl.
    apply andb_prop in Hl as [Hl Hlist]. apply andb_prop in Hl as [Hne Hhash].
    apply negb_true_iff in Hne, Hhash, Hlist.
    unfold scan_line at 2. cbn zeta. simpl sc_structure; simpl current_paragraph;
      simpl in_list; simpl list_items.
    rewrite Hhash, Hlist.
    destruct (strip raw) as [|c l] eqn:Es; [discriminate|].
    rewrite IH by exact Hrest. rewrite <- app_assoc. reflexivity.
Qed.

(** C6 (amended): when every line of the input is, after [strip], non-empty
    and starts with neither [#] nor a list marker, the extractor returns no
    heading, no list and exactly one paragraph: the stripped lines joined
    with single spaces. *)
Theorem extract_plain_paragraph (t : text) :
  forallb plain_line (split_nl t) = true ->
  extract_structure t =
  {| headings := []; paragraphs := [join (s2t " ") (map strip (split_nl t))]; lists := [] |}.
Proof.
  intros Hb. unfold extract_structure, scan_init.
  rewrite (scan_plain_lines _ [] Hb). simpl app.
  unfold scan_finish; simpl.
  destruct (split_nl t) as [|l ls] eqn:E; [exfalso; exact (split_nl_aux_not_nil t [] E)|].
  reflexivity.
Qed.

(** C6 (counterexample): in [a / (one space) / b] every raw line is
    non-empty and starts with neither [#] nor a list marker, yet the
    whitespace-only line is blank after [strip] and ends the first
    paragraph: the extractor returns two paragraphs. *)
Lemma extract_two_paragraphs :
  let t := s2t "a" ++ nl ++ s2t " " ++ nl ++ s2t "b" in
  forallb raw_plain_line (split_nl t) = true /\
  paragraphs (extract_structure t) = [s2t "a"; s2t "b"].
Proof. intros t. split; vm_compute; reflexivity. Qed.

Definition nonempty {A} (l : list A) : Prop := l <> [].

(** What holds of the loop variables after every iteration. *)
Definition scan_inv (sc : scan) : Prop :=
  Forall nonempty (lists (sc_structure sc)) /\
  Forall nonempty (paragraphs (sc_structure sc)) /\
  Forall nonempty (current_paragraph sc) /\
  (in_list sc = true -> nonempty (list_items sc)).

Lemma join_nonempty (sep x : text) (xs : list text) :
  nonempty x -> nonempty (join sep (x :: xs)).
Proof.
  unfold nonempty. intros Hx. destruct xs as [|y ys]; simpl; [exact Hx|].
  destruct x; [contradiction | discriminate].
Qed.

Lemma flush_paragraph_lists (st : structure) (cp : list text) :
  lists (flush_paragraph st cp) = lists st.
Proof. destruct cp; reflexivity. Qed.

Lemma flush_paragraph_paragraphs (st : structure) (cp : list text) :
  Forall nonempty (paragraphs st) -> Forall nonempty cp ->
  Forall nonempty (paragraphs (flush_paragraph st cp)).
Proof.
  intros Hp Hcp. destruct cp as [|x xs]; [exact Hp|].
  unfold flush_paragraph, add_paragraph_entry. cbn [paragraphs].
  apply Forall_app. split; [exact Hp|].
  constructor; [|constructor]. apply join_nonempty. inversion Hcp; assumption.
Qed.

Lemma flush_list_paragraphs (st : structure) (il : bool) (items : list text) :
  paragraphs (flush_list st il items) = paragraphs st.
Proof. destruct il; reflexivity. Qed.

Lemma flush_list_lists (st : structure) (il : bool) (items : list text) :
  Forall nonempty (lists st) -> (il = true -> nonempty items) ->
  Forall nonempty (lists (flush_list st il items)).
Proof.
  intros Hl Hi. destruct il; simpl; [|exact Hl].
  apply Forall_app. split; [exact Hl | constructor; [apply Hi; reflexivity | constructor]].
Qed.

Lemma scan_line_inv (sc : scan) (raw : text) :
  scan_inv sc -> scan_inv (scan_line sc raw).
Proof.
  destruct sc as [st cp il items]. intros (Hl & Hp & Hcp & Hi). simpl in *.
  unfold scan_line. cbn zeta. simpl sc_structure; simpl current_paragraph;
    simpl in_list; simpl list_items.
  destruct (startswith (strip raw) (s2t "#")).
  - repeat split; simpl.
    + apply flush_list_lists; [rewrite flush_paragraph_lists; exact Hl | exact Hi].
    + rewrite flush_list_paragraphs. apply flush_paragraph_paragraphs; assumption.
    + constructor.
    + discriminate.
  - destruct (is_list_line (strip raw)).
    + repeat split; simpl.
      * rewrite flush_paragraph_lists. exact Hl.
      * apply flush_paragraph_paragraphs; assumption.
      * constructor.
      * intros _. unfold nonempty. destruct items; discriminate.
    + destruct (strip raw) as [|c l] eqn:Es; repeat split; simpl.
      * apply flush_list_lists; [rewrite flush_paragraph_lists; exact Hl | exact Hi].
      * rewrite flush_list_paragraphs. apply flush_paragraph_paragraphs; assumption.
      * constructor.
      * discriminate.
      * apply flush_list_lists; assumption.
      * rewrite flush_list_paragraphs. exact Hp.
      * apply Forall_app. split; [exact Hcp | constructor; [discriminate | constructor]].
      * discriminate.
Qed.

(** C10: every list the extractor returns has at least one item, and every
    paragraph it returns is a non-empty text. *)
Theorem extract_lists_paragraphs_nonempty (t : text) :
  Forall nonempty (lists (extract_structure t)) /\
  Forall nonempty (paragraphs (extract_structure t)).
Proof.
  assert (Hinv : scan_inv (fold_left scan_line (split_nl t) scan_init)).
  { assert (H0 : scan_inv scan_init) by (repeat split; simpl; try constructor; discriminate).
    revert H0. generalize scan_init. induction (split_nl t) as [|raw ls IH]; intros sc H; simpl.
    - exact H.
    - apply IH, scan_line_inv, H. }
  unfold extract_structure, scan_finish.
  destruct (fold_left scan_line (split_nl t) scan_init) as [st cp il items].
  destruct Hinv as (Hl & Hp & Hcp & Hi). simpl in *. split.
  - apply flush_list_lists; [rewrite flush_paragraph_lists; exact Hl | exact Hi].
  - rewrite flush_list_paragraphs. apply flush_paragraph_paragraphs; assumption.
Qed.

(** ** Rendering *)

Section TotalBackend.

Variable accepts : cmd -> bool.
Hypothesis accepts_all : forall c, accepts c = true.

Lemma emit_total (c : cmd) (d : doc) : emit accepts c d = (Ok tt, d ++ [c]).
Proof. unfold emit. rewrite accepts_all. reflexivity. Qed.

Lemma bind_ok {A B} (m : M A) (k : A -> M B) (d d' : doc) (a : A) :
  m d = (Ok a, d') -> bind m k d = k a d'.
Proof. intros H. unfold bind. rewrite H. reflexivity. Qed.

Lemma try_ok {A} (m : M A) (h : exn -> M A) (d d' : doc) (a : A) :
  m d = (Ok a, d') -> try_except m h d = (Ok a, d').
Proof. intros H. unfold try_except. rewrite H. reflexivity. Qed.

Lemma for_total {X} (xs : list X) (body : X -> M unit) (f : X -> doc) :
  (forall x d, body x d = (Ok tt, d ++ f x)) ->
  forall d, for_ xs body d = (Ok tt, d ++ flat_map f xs).
Proof.
  intros Hb. induction xs as [|x xs IH]; intros d; simpl.
  - rewrite app_nil_r. reflexivity.
  - rewrite (bind_ok _ _ _ _ _ (Hb x d)), IH, app_assoc. reflexivity.
Qed.

Ltac run_total :=
  repeat first
    [ rewrite (bind_ok _ _ _ _ _ (emit_total _ _))
    | rewrite (bind_ok _ _ _ _ _ (try_ok _ _ _ _ _ (emit_total _ _)))
    | rewrite (try_ok _ _ _ _ _ (emit_total _ _))
    | rewrite emit_total ];
  repeat rewrite <- app_assoc; reflexivity.

Lemma add_heading_total (txt : text) (level : Z) (d : doc) :
  add_heading accepts txt level d =
  (Ok tt, d ++ heading_cmds {| h_level := level; h_text := txt |}).
Proof. unfold add_heading, set_font. run_total. Qed.

Lemma add_paragraph_total (p : text) (d : doc) :
  add_paragraph accepts p d = (Ok tt, d ++ paragraph_cmds p).
Proof. unfold add_paragraph, set_font. run_total. Qed.

Lemma add_list_total (items : list text) (d : doc) :
  add_list accepts items d = (Ok tt, d ++ list_cmds items).
Proof.
  unfold add_list, set_font.
  rewrite (bind_ok _ _ _ _ _ (emit_total _ _)).
  rewrite (for_total _ _ (fun i => [Cell 10 10 (s2t "-") 0; MultiCell 0 10 (sanitize_text i)])).
  - unfold list_cmds. rewrite <- app_assoc. reflexivity.
  - intros x d'. run_total.
Qed.

(** C2 (amended): with a backend that takes every call,
    [add_content_from_structure] emits all headings in order, then all
    paragraphs in order, then all lists in order. *)
Theorem add_content_grouped (st : structure) (d : doc) :
  add_content_from_structure accepts st d =
  (Ok tt, d ++ flat_map heading_cmds (headings st) ++
               flat_map paragraph_cmds (paragraphs st) ++
               flat_map list_cmds (lists st)).
Proof.
  unfold add_content_from_structure.
  assert (Hh : forall h d', add_heading accepts (h_text h) (h_level h) d' =
                            (Ok tt, d' ++ heading_cmds h))
    by (intros [lv tx] d'; apply add_heading_total).
  rewrite (bind_ok _ _ _ _ _ (for_total _ _ heading_cmds Hh d)).
  rewrite (bind_ok _ _ _ _ _ (for_total _ _ paragraph_cmds add_paragraph_total _)).
  rewrite (for_total _ _ list_cmds add_list_total).
  rewrite <- !app_assoc. reflexivity.
Qed.

(** C7: for a level outside 1..6 the size lookup gives 12, and with a
    backend that takes every call [add_heading] returns normally after
    setting bold Arial at size 12. *)
Theorem add_heading_fallback_size (txt : text) (level : Z) (d : doc) :
  ~ (1 <= level <= 6)%Z ->
  heading_sizes_get heading_sizes level 12 = 12%Z /\
  add_heading accepts txt level d =
  (Ok tt, d ++ [SetFont "Arial" "B" 12; Ln 10; Cell 0 10 (sanitize_text txt) 1;
                Ln 5; SetFont "Arial" regular 12]).
Proof.
  intros Hout.
  assert (Hs : heading_sizes_get heading_sizes level 12 = 12%Z).
  { unfold heading_sizes. cbn [heading_sizes_get].
    repeat match goal with
    | |- context [Z.eqb ?k level] =>
        let E := fresh in destruct (Z.eqb_spec k level) as [E|E]; [lia|]
    end. reflexivity. }
  split; [exact Hs|].
  rewrite add_heading_total. unfold heading_cmds. cbn [h_level h_text]. rewrite Hs. reflexivity.
Qed.

End TotalBackend.

(** C2 (counterexample): for [- x / y / ## H] the renderer draws the
    heading first, then the paragraph, then the list, not the source order
    list, paragraph, heading. *)
Lemma add_content_not_source_order :
  let r := add_content_from_structure (fun _ => true) (extract_structure list_par_heading) [] in
  r = (Ok tt, heading_cmds {| h_level := 2; h_text := s2t "H" |} ++
              paragraph_cmds (s2t "y") ++ list_cmds [s2t "x"]) /\
  snd r <> list_cmds [s2t "x"] ++ paragraph_cmds (s2t "y") ++
           heading_cmds {| h_level := 2; h_text := s2t "H" |}.
Proof. intros r. split; vm_compute; [reflexivity | discriminate]. Qed.

(** ** Writing the file *)

Lemma build_error_pdf_total (accepts : cmd -> bool) :
  forallb accepts error_doc = true -> build_error_pdf accepts [] = (Ok tt, error_doc).
Proof.
  unfold error_doc. simpl. intros H.
  apply andb_prop in H as [H1 H]. apply andb_prop in H as [H2 H].
  apply andb_prop in H as [H3 H]. apply andb_prop in H as [H4 _].
  unfold build_error_pdf, bind, set_font, emit.
  rewrite H1, H2, H3, H4. reflexivity.
Qed.

(** C8: when the document cannot be written for a content reason to a
    writable destination, [generate_pdf] raises nothing: it writes the
    two-line error document to the same path and returns that path.  When
    the destination is not writable, it raises [DestinationError].  (The
    backend is assumed to take the error document's calls and serialise
    it.) *)
Theorem generate_pdf_fallback (accepts : cmd -> bool) (dest_ok : path -> bool)
    (content_ok : doc -> bool) (mkstemp : fsys -> path)
    (Hacc : forallb accepts error_doc = true) (Hok : content_ok error_doc = true)
    (self_pdf : doc) (output_path : option path) (fs : fsys) :
  let p := fst (resolve_path mkstemp output_path fs) in
  let fs1 := snd (resolve_path mkstemp output_path fs) in
  (dest_ok p = true -> content_ok self_pdf = false ->
   generate_pdf accepts dest_ok content_ok mkstemp self_pdf output_path fs =
   (Ok p, write fs1 p (PdfFile error_doc))) /\
  (dest_ok p = false ->
   generate_pdf accepts dest_ok content_ok mkstemp self_pdf output_path fs =
   (Raise DestinationError, fs1)).
Proof.
  unfold generate_pdf. destruct (resolve_path mkstemp output_path fs) as [p fs1]. simpl.
  rewrite (build_error_pdf_total _ Hacc).
  unfold output. split.
  - intros Hd Hc. rewrite Hd, Hc, Hok. reflexivity.
  - intros Hd. rewrite Hd. reflexivity.
Qed.

(** * Witnesses: the hypotheses above hold at concrete inputs *)

Lemma extract_plain_paragraph_witness :
  extract_structure (s2t "  a b" ++ nl ++ s2t "c-d ") =
  {| headings := []; paragraphs := [s2t "a b c-d"]; lists := [] |}.
Proof.
  rewrite (extract_plain_paragraph (s2t "  a b" ++ nl ++ s2t "c-d ")) by (vm_compute; reflexivity).
  vm_compute. reflexivity.
Defined.

Lemma add_content_grouped_witness :
  add_content_from_structure (fun _ => true) (extract_structure list_par_heading) [] =
  (Ok tt, [] ++ heading_cmds {| h_level := 2; h_text := s2t "H" |} ++
              paragraph_cmds (s2t "y") ++ list_cmds [s2t "x"] ++ []).
Proof.
  rewrite (add_content_grouped (fun _ => true) (fun _ => eq_refl)).
  vm_compute. reflexivity.
Defined.

Lemma add_heading_fallback_size_witness :
  heading_sizes_get heading_sizes 7 12 = 12%Z /\
  add_heading (fun _ => true) (s2t "T") 0 [] =
  (Ok tt, [SetFont "Arial" "B" 12; Ln 10; Cell 0 10 (s2t "T") 1; Ln 5; SetFont "Arial" regular 12]).
Proof.
  split.
  - apply (add_heading_fallback_size (fun _ => true) (fun _ => eq_refl) (s2t "T") 7 []). lia.
  - apply (add_heading_fallback_size (fun _ => true) (fun _ => eq_refl) (s2t "T") 0 []). lia.
Defined.

Definition no_files : fsys := fun _ => None.

Lemma generate_pdf_fallback_witness :
  generate_pdf (fun _ => true) (fun p => String.eqb p "out.pdf"%string)
    (fun d => Nat.eqb (List.length d) 4) (fun _ => "tmp.pdf"%string)
    [AddPage] (Some "out.pdf"%string) no_files =
  (Ok "out.pdf"%string, write no_files "out.pdf"%string (PdfFile error_doc)) /\
  generate_pdf (fun _ => true) (fun p => String.eqb p "out.pdf"%string)
    (fun d => Nat.eqb (List.length d) 4) (fun _ => "tmp.pdf"%string)
    [AddPage] None no_files =
  (Raise DestinationError, write no_files "tmp.pdf"%string EmptyFile).
Proof.
  split.
  - apply (generate_pdf_fallback (fun _ => true) (fun p => String.eqb p "out.pdf"%string)
      (fun d => Nat.eqb (List.length d) 4) (fun _ => "tmp.pdf"%string) eq_refl eq_refl
      [AddPage] (Some "out.pdf"%string) no_files); reflexivity.
  - apply (generate_pdf_fallback (fun _ => true) (fun p => String.eqb p "out.pdf"%string)
      (fun d => Nat.eqb (List.length d) 4) (fun _ => "tmp.pdf"%string) eq_refl eq_refl
      [AddPage] None no_files); reflexivity.
Defined.

(** * Further properties *)

(** ** [strip] *)

Definition edge_ok (s : text) : Prop :=
  (forall c r, s = c :: r -> is_space c = false) /\
  (forall r c, s = r ++ [c] -> is_space c = false).

Lemma lstrip_shape (s : text) : forall c r, lstrip s = c :: r -> is_space c = false.
Proof.
  induction s as [|x s IH]; simpl; intros c r H; [discriminate|].
  destruct (is_space x) eqn:E; [exact (IH c r H)|]. injection H as <- _. exact E.
Qed.

Lemma lstrip_fix (s : text) : (forall c r, s = c :: r -> is_space c = false) -> lstrip s = s.
Proof.
  destruct s as [|x s]; simpl; intros H; [reflexivity|].
  rewrite (H x s eq_refl). reflexivity.
Qed.

Lemma lstrip_split (s : text) : exists pre, s = pre ++ lstrip s.
Proof.
  induction s as [|x s [pre IH]]; simpl; [exists []; reflexivity|].
  destruct (is_space x); [exists (x :: pre); simpl; f_equal; exact IH | exists []; reflexivity].
Qed.

Lemma strip_edge (s : text) : edge_ok (strip s).
Proof.
  unfold strip. split.
  - intros c r H.
    destruct (lstrip_split (rev (lstrip s))) as [pre Hpre].
    assert (Ha : lstrip s = rev (lstrip (rev (lstrip s))) ++ rev pre).
    { rewrite <- (rev_involutive (lstrip s)) at 1. rewrite Hpre at 1.
      rewrite rev_app_distr. reflexivity. }
    rewrite H in Ha. simpl in Ha. exact (lstrip_shape s c _ Ha).
  - intros r c H.
    apply (f_equal (@rev N)) in H. rewrite rev_involutive, rev_app_distr in H.
    simpl in H. exact (lstrip_shape _ c _ H).
Qed.

Lemma edge_strip (s : text) : edge_ok s -> strip s = s.
Proof.
  intros [Hh Ht]. unfold strip. rewrite (lstrip_fix s Hh).
  rewrite lstrip_fix; [apply rev_involutive|].
  intros c r H. apply (Ht (rev r)). rewrite <- (rev_involutive s), H. reflexivity.
Qed.

Lemma strip_strip (s : text) : strip (strip s) = strip s.
Proof. apply edge_strip, strip_edge. Qed.

Lemma join_cons_app (sep x : text) (xs : list text) :
  exists rest, join sep (x :: xs) = x ++ rest.
Proof.
  destruct xs as [|y ys]; [exists []; simpl; rewrite app_nil_r; reflexivity|].
  eexists. reflexivity.
Qed.

Lemma join_last_edge (x : text) (xs : list text) :
  Forall (fun y => y <> [] /\ edge_ok y) (x :: xs) ->
  forall r c, join [32] (x :: xs) = r ++ [c] -> is_space c = false.
Proof.
  revert x. induction xs as [|y ys IH]; intros x Hall r c H.
  - inversion Hall as [|? ? [_ [_ Ht]] _]; subst. exact (Ht r c H).
  - inversion Hall as [|? ? _ Hrest]; subst.
    change (join [32] (x :: y :: ys)) with (x ++ [32] ++ join [32] (y :: ys)) in H.
    assert (Hne : join [32] (y :: ys) <> []).
    { apply join_nonempty. inversion Hrest as [|? ? [Hy _] _]; exact Hy. }
    destruct (exists_last Hne) as [r' [c' Hj]].
    rewrite Hj, !app_assoc in H. apply app_inj_tail in H as [_ <-].
    exact (IH y Hrest r' c' Hj).
Qed.

Lemma join_edge (xs : list text) :
  Forall (fun y => y <> [] /\ edge_ok y) xs -> edge_ok (join [32] xs).
Proof.
  intros Hall. destruct xs as [|x xs].
  - split; [intros c r H; discriminate | intros r c H; destruct r; discriminate].
  - split.
    + intros c r H. destruct (join_cons_app [32] x xs) as [rest Hr].
      inversion Hall as [|? ? [Hx [Hh _]] _]; subst.
      destruct x as [|x0 x']; [contradiction|].
      rewrite Hr in H. injection H as <- _. exact (Hh x0 x' eq_refl).
    + exact (join_last_edge x xs Hall).
Qed.

(** [process_text] is idempotent, and its result neither starts nor ends
    with a whitespace code point. *)
Theorem process_text_stripped (t : text) :
  process_text (process_text t) = process_text t /\
  (forall c r, process_text t = c :: r -> is_space c = false) /\
  (forall r c, process_text t = r ++ [c] -> is_space c = false).
Proof.
  unfold process_text. split; [apply strip_strip | apply strip_edge].
Qed.

(** ** [extract_structure]: what each kind of line contributes *)

Lemma flush_paragraph_headings (st : structure) (cp : list text) :
  headings (flush_paragraph st cp) = headings st.
Proof. destruct cp; reflexivity. Qed.

Lemma flush_list_headings (st : structure) (il : bool) (items : list text) :
  headings (flush_list st il items) = headings st.
Proof. destruct il; reflexivity. Qed.

Lemma flush_paragraph_paragraphs_eq (st : structure) (cp : list text) :
  paragraphs (flush_paragraph st cp) =
  paragraphs st ++ match cp with [] => [] | _ => [join [32] cp] end.
Proof. destruct cp; simpl; [rewrite app_nil_r|]; reflexivity. Qed.

Lemma flush_list_lists_eq (st : structure) (il : bool) (items : list text) :
  lists (flush_list st il items) = lists st ++ (if il then [items] else []).
Proof. destruct il; simpl; [|rewrite app_nil_r]; reflexivity. Qed.

Lemma heading_not_list (line : text) :
  startswith line (s2t "#") = true -> is_list_line line = false.
Proof.
  destruct line as [|c l]; [discriminate|]. change (s2t "#") with [35].
  intros H. change ((35 =? c) && startswith l [] = true) in H.
  apply andb_prop in H as [H _]. apply N.eqb_eq in H. subst c. reflexivity.
Qed.

Lemma scan_line_headings (sc : scan) (raw : text) :
  headings (sc_structure (scan_line sc raw)) =
  headings (sc_structure sc) ++ (if heading_line raw then [heading_of raw] else []).
Proof.
  destruct sc as [st cp il items]. unfold scan_line, heading_line, heading_of. cbn zeta.
  simpl sc_structure; simpl current_paragraph; simpl in_list; simpl list_items.
  change (s2t "#") with [35].
  destruct (startswith (strip raw) [35]).
  - simpl. rewrite flush_list_headings, flush_paragraph_headings. reflexivity.
  - destruct (is_list_line (strip raw)).
    + simpl. rewrite flush_paragraph_headings, app_nil_r. reflexivity.
    + destruct (strip raw); simpl;
        rewrite ?flush_list_headings, ?flush_paragraph_headings, app_nil_r; reflexivity.
Qed.

Lemma headings_of_lines (t : text) :
  headings (extract_structure t) = map heading_of (filter heading_line (split_nl t)).
Proof.
  unfold extract_structure, scan_finish.
  rewrite flush_list_headings, flush_paragraph_headings.
  assert (G : forall ls sc, headings (sc_structure (fold_left scan_line ls sc)) =
                            headings (sc_structure sc) ++ map heading_of (filter heading_line ls)).
  { induction ls as [|raw ls IH]; intros sc; simpl; [rewrite app_nil_r; reflexivity|].
    rewrite IH, scan_line_headings. destruct (heading_line raw); simpl;
      rewrite <- ?app_assoc; reflexivity. }
  rewrite G. reflexivity.
Qed.

(** The headings are exactly those of the heading lines, in source order. *)
Theorem extract_headings_exact (t : text) :
  headings (extract_structure t) = map heading_of (filter heading_line (split_nl t)).
Proof. apply headings_of_lines. Qed.

Lemma count_hashes_pos (line : text) :
  startswith line (s2t "#") = true -> (1 <= count_hashes line)%nat.
Proof.
  destruct line as [|c l]; [discriminate|]. change (s2t "#") with [35].
  intros H. change ((35 =? c) && startswith l [] = true) in H.
  apply andb_prop in H as [H _]. apply N.eqb_eq in H. subst c. simpl. lia.
Qed.

(** Every heading level is at least 1. *)
Theorem extract_heading_levels_pos (t : text) :
  Forall (fun h => (1 <= h_level h)%Z) (headings (extract_structure t)).
Proof.
  rewrite headings_of_lines. apply Forall_forall. intros h Hin.
  apply in_map_iff in Hin as [raw [<- Hf]]. apply filter_In in Hf as [_ Hh].
  unfold heading_of, heading_line in *. cbn zeta. simpl h_level.
  pose proof (count_hashes_pos _ Hh). lia.
Qed.

(** What holds of the loop variables for list items. *)
Definition items_inv (sc : scan) : Prop := in_list sc = false -> list_items sc = [].

Lemma scan_line_items (sc : scan) (raw : text) :
  items_inv sc ->
  items_inv (scan_line sc raw) /\
  List.concat (lists (sc_structure (scan_line sc raw))) ++ list_items (scan_line sc raw) =
  List.concat (lists (sc_structure sc)) ++ list_items sc ++
    (if list_line raw then [item_of raw] else []).
Proof.
  destruct sc as [st cp il items]. unfold items_inv, scan_line, list_line, item_of.
  cbn zeta. simpl sc_structure; simpl current_paragraph; simpl in_list; simpl list_items.
  change (s2t "#") with [35].
  intros Hi.
  assert (Hil : (if il then [] else items) = []) by (destruct il; [reflexivity | exact (Hi eq_refl)]).
  assert (Hfl : forall st', lists st' = lists st ->
                List.concat (lists (flush_list st' il items)) ++ (if il then [] else items) =
                List.concat (lists st) ++ items).
  { intros st' E. rewrite flush_list_lists_eq, List.concat_app, E.
    destruct il; simpl; rewrite ?app_nil_r; [reflexivity|].
    rewrite (Hi eq_refl). reflexivity. }
  destruct (startswith (strip raw) [35]) eqn:Eh.
  - rewrite (heading_not_list _ Eh). simpl. split; [intros _; exact Hil|].
    rewrite app_nil_r, <- (Hfl (flush_paragraph st cp)) by apply flush_paragraph_lists.
    rewrite Hil, app_nil_r. reflexivity.
  - destruct (is_list_line (strip raw)).
    + simpl. split; [discriminate|].
      rewrite flush_paragraph_lists, app_assoc. reflexivity.
    + rewrite app_nil_r. destruct (strip raw) as [|c l]; simpl; (split; [intros _; exact Hil|]).
      * rewrite <- (Hfl (flush_paragraph st cp)) by apply flush_paragraph_lists. reflexivity.
      * rewrite <- (Hfl st) by reflexivity. reflexivity.
Qed.

Lemma items_of_lines (t : text) :
  List.concat (lists (extract_structure t)) = map item_of (filter list_line (split_nl t)).
Proof.
  assert (G : forall ls sc, items_inv sc ->
     items_inv (fold_left scan_line ls sc) /\
     List.concat (lists (sc_structure (fold_left scan_line ls sc))) ++ list_items (fold_left scan_line ls sc) =
     List.concat (lists (sc_structure sc)) ++ list_items sc ++ map item_of (filter list_line ls)).
  { induction ls as [|raw ls IH]; intros sc Hi; simpl.
    - split; [exact Hi | rewrite app_nil_r; reflexivity].
    - destruct (scan_line_items sc raw Hi) as [Hi' Heq].
      destruct (IH _ Hi') as [Hinv Hc]. split; [exact Hinv|].
      rewrite Hc, app_assoc, Heq, <- !app_assoc.
      destruct (list_line raw); reflexivity. }
  destruct (G (split_nl t) scan_init (fun _ => eq_refl)) as [Hi Hc].
  unfold extract_structure, scan_finish.
  destruct (fold_left scan_line (split_nl t) scan_init) as [st cp il items].
  simpl in *. rewrite flush_list_lists_eq, flush_paragraph_lists, concat_app.
  unfold items_inv in Hi. simpl in Hi.
  destruct il; simpl; rewrite ?app_nil_r.
  - rewrite Hc. reflexivity.
  - rewrite (Hi eq_refl), app_nil_r in Hc. exact Hc.
Qed.

(** The list items, read across all lists, are exactly the items of the
    list lines, in source order: none is lost or invented. *)
Theorem extract_items_exact (t : text) :
  List.concat (lists (extract_structure t)) = map item_of (filter list_line (split_nl t)).
Proof. apply items_of_lines. Qed.

Definition para_inv (sc : scan) : Prop :=
  Forall (fun p => strip p = p) (paragraphs (sc_structure sc)) /\
  Forall (fun x => x <> [] /\ edge_ok x) (current_paragraph sc).

Lemma flush_paragraph_stripped (st : structure) (cp : list text) :
  Forall (fun p => strip p = p) (paragraphs st) ->
  Forall (fun x => x <> [] /\ edge_ok x) cp ->
  Forall (fun p => strip p = p) (paragraphs (flush_paragraph st cp)).
Proof.
  intros Hp Hcp. rewrite flush_paragraph_paragraphs_eq. apply Forall_app. split; [exact Hp|].
  destruct cp; constructor; [apply edge_strip, join_edge, Hcp | constructor].
Qed.

Lemma scan_line_para (sc : scan) (raw : text) : para_inv sc -> para_inv (scan_line sc raw).
Proof.
  destruct sc as [st cp il items]. unfold para_inv, scan_line. cbn zeta.
  simpl sc_structure; simpl current_paragraph; simpl in_list; simpl list_items.
  change (s2t "#") with [35].
  intros [Hp Hcp].
  destruct (startswith (strip raw) [35]).
  - simpl. split; [|constructor].
    rewrite flush_list_paragraphs. apply flush_paragraph_stripped; assumption.
  - destruct (is_list_line (strip raw)).
    + simpl. split; [apply flush_paragraph_stripped; assumption | constructor].
    + pose proof (strip_edge raw) as He.
      destruct (strip raw) as [|c l]; simpl; split.
      * rewrite flush_list_paragraphs. apply flush_paragraph_stripped; assumption.
      * constructor.
      * rewrite flush_list_paragraphs. exact Hp.
      * apply Forall_app. split; [exact Hcp | constructor; [split; [discriminate | exact He] | constructor]].
Qed.

(** Every heading text, paragraph and list item the extractor returns is
    its own [strip]: none starts or ends with whitespace. *)
Theorem extract_texts_stripped (t : text) :
  Forall (fun h => strip (h_text h) = h_text h) (headings (extract_structure t)) /\
  Forall (fun p => strip p = p) (paragraphs (extract_structure t)) /\
  Forall (fun i => strip i = i) (List.concat (lists (extract_structure t))).
Proof.
  split; [|split].
  - rewrite headings_of_lines. apply Forall_forall. intros h Hin.
    apply in_map_iff in Hin as [raw [<- _]]. apply strip_strip.
  - assert (G : forall ls sc, para_inv sc -> para_inv (fold_left scan_line ls sc)).
    { induction ls as [|raw ls IH]; intros sc H; simpl; [exact H | apply IH, scan_line_para, H]. }
    destruct (G (split_nl t) scan_init (conj (Forall_nil _) (Forall_nil _))) as [Hp Hcp].
    unfold extract_structure, scan_finish. rewrite flush_list_paragraphs.
    apply flush_paragraph_stripped; assumption.
  - rewrite items_of_lines. apply Forall_forall. intros i Hin.
    apply in_map_iff in Hin as [raw [<- _]]. apply strip_strip.
Qed.

(** An input whose lines are all blank after [strip] (the empty input
    among them) yields no heading, no paragraph and no list. *)
Theorem extract_blank_input (t : text) :
  forallb blank_line (split_nl t) = true -> extract_structure t = empty_structure.
Proof.
  intros Hb. unfold extract_structure.
  assert (G : forall ls, forallb blank_line ls = true -> fold_left scan_line ls scan_init = scan_init).
  { induction ls as [|raw ls IH]; intros H; simpl; [reflexivity|].
    simpl in H. apply andb_prop in H as [H1 H2].
    unfold blank_line in H1. apply text_eqb_nil in H1.
    replace (scan_line scan_init raw) with scan_init; [exact (IH H2)|].
    unfold scan_line. cbn zeta. rewrite H1. reflexivity. }
  rewrite (G _ Hb). reflexivity.
Qed.

(** ** Rendering when the backend refuses some text cells *)

Section Tolerant.

Variable accepts : cmd -> bool.
(** The backend takes every call that is not a text cell, the list marker
    and the three placeholders; it may refuse any other text cell. *)
Hypothesis accepts_other : forall c, is_text_cell c = false -> accepts c = true.
Hypothesis accepts_marker : accepts (Cell 10 10 (s2t "-") 0) = true.
Hypothesis accepts_paragraph_placeholder : accepts (MultiCell 0 10 paragraph_placeholder) = true.
Hypothesis accepts_item_placeholder : accepts (MultiCell 0 10 item_placeholder) = true.
Hypothesis accepts_heading_placeholder :
  forall level, accepts (Cell 0 10 (heading_placeholder level) 1) = true.

Lemma emit_acc (c : cmd) (d : doc) : accepts c = true -> emit accepts c d = (Ok tt, d ++ [c]).
Proof. intros H. unfold emit. rewrite H. reflexivity. Qed.

Lemma try_text (c f : cmd) (d : doc) :
  accepts f = true ->
  try_except (emit accepts c) (fun _ => emit accepts f) d = (Ok tt, d ++ [if accepts c then c else f]).
Proof. intros Hf. unfold try_except, emit. destruct (accepts c); [|rewrite Hf]; reflexivity. Qed.

Ltac acc :=
  first [ apply accepts_other; reflexivity | exact accepts_marker
        | exact accepts_paragraph_placeholder | exact accepts_item_placeholder
        | apply accepts_heading_placeholder ].

Ltac step_tol :=
  match goal with
  | |- context [bind (try_except (emit accepts ?c) (fun _ => emit accepts ?f)) ?k ?d] =>
      rewrite (bind_ok (try_except (emit accepts c) (fun _ => emit accepts f)) k d _ tt
                 (try_text c f d ltac:(acc)))
  | |- context [bind (emit accepts ?c) ?k ?d] =>
      rewrite (bind_ok (emit accepts c) k d _ tt (emit_acc c d ltac:(acc)))
  | |- context [try_except (emit accepts ?c) (fun _ => emit accepts ?f) ?d] =>
      rewrite (try_text c f d ltac:(acc))
  | |- context [emit accepts ?c ?d] => rewrite (emit_acc c d ltac:(acc))
  end; cbv beta.

Ltac run_tol :=
  repeat step_tol;
  rewrite <- ?app_assoc;
  repeat match goal with |- context [accepts ?c] => destruct (accepts c) end;
  reflexivity.

Lemma add_heading_run (txt : text) (level : Z) (d : doc) :
  add_heading accepts txt level d =
  (Ok tt, d ++ heading_cmds_b accepts {| h_level := level; h_text := txt |}).
Proof. unfold add_heading, set_font, heading_cmds_b. cbn [h_level h_text]. run_tol. Qed.

Lemma add_paragraph_run (p : text) (d : doc) :
  add_paragraph accepts p d = (Ok tt, d ++ paragraph_cmds_b accepts p).
Proof. unfold add_paragraph, set_font, paragraph_cmds_b. run_tol. Qed.

Lemma add_list_run (items : list text) (d : doc) :
  add_list accepts items d = (Ok tt, d ++ list_cmds_b accepts items).
Proof.
  unfold add_list, set_font, list_cmds_b.
  step_tol.
  rewrite (for_total _ _ (item_cmds_b accepts)).
  - rewrite <- app_assoc. reflexivity.
  - intros x d'. unfold item_cmds_b. run_tol.
Qed.

Lemma add_content_run (st : structure) (d : doc) :
  add_content_from_structure accepts st d =
  (Ok tt, d ++ flat_map (heading_cmds_b accepts) (headings st) ++
               flat_map (paragraph_cmds_b accepts) (paragraphs st) ++
               flat_map (list_cmds_b accepts) (lists st)).
Proof.
  unfold add_content_from_structure.
  assert (Hh : forall h d', add_heading accepts (h_text h) (h_level h) d' =
                            (Ok tt, d' ++ heading_cmds_b accepts h))
    by (intros [lv tx] d'; apply add_heading_run).
  rewrite (bind_ok _ _ _ _ _ (for_total _ _ _ Hh d)).
  rewrite (bind_ok _ _ _ _ _ (for_total _ _ _ add_paragraph_run _)).
  rewrite (for_total _ _ _ add_list_run).
  rewrite <- !app_assoc. reflexivity.
Qed.

Lemma add_text_run (txt : text) (d : doc) :
  add_text accepts txt d =
  (Ok tt, d ++ [MultiCell 0 10 (if accepts (MultiCell 0 10 (sanitize_text txt))
                               then sanitize_text txt else paragraph_placeholder)]).
Proof. unfold add_text. run_tol. Qed.

(** [add_list] isolates failures per item: a refused item is drawn as the
    item placeholder after its marker, and the remaining items are still
    drawn; [add_list] itself returns normally. *)
Theorem add_list_isolated (items : list text) (d : doc) :
  add_list accepts items d = (Ok tt, d ++ list_cmds_b accepts items).
Proof. exact (add_list_run items d). Qed.

(** [add_content_from_structure] never raises: every heading, paragraph
    and list item is drawn, its text replaced by the placeholder where the
    backend refuses it, headings first, then paragraphs, then lists. *)
Theorem add_content_isolated (st : structure) (d : doc) :
  add_content_from_structure accepts st d =
  (Ok tt, d ++ flat_map (heading_cmds_b accepts) (headings st) ++
               flat_map (paragraph_cmds_b accepts) (paragraphs st) ++
               flat_map (list_cmds_b accepts) (lists st)).
Proof. exact (add_content_run st d). Qed.

(** The app's document building ([PDFGenerator()], then the markdown or
    the plain-text path) never raises, for any input. *)
Theorem build_document_never_raises (is_markdown : bool) (input : text) (d : doc) :
  fst (build_document accepts is_markdown input d) = Ok tt.
Proof.
  assert (Hi : pdf_init accepts d =
    (Ok tt, d ++ [SetAutoPageBreak true 15; AddPage; SetFont "Arial" regular 12]))
    by (unfold pdf_init, set_font; run_tol).
  unfold build_document. rewrite (bind_ok _ _ _ _ _ Hi).
  destruct is_markdown; [rewrite add_content_run | rewrite add_text_run]; reflexivity.
Qed.

End Tolerant.

(** ** [generate_pdf]: the file it writes and the files it leaves alone *)

Lemma build_error_pdf_doc (accepts : cmd -> bool) (a : unit) (d : doc) :
  build_error_pdf accepts [] = (Ok a, d) -> d = error_doc.
Proof.
  unfold build_error_pdf, bind, set_font, emit.
  repeat match goal with |- context [accepts ?c] => destruct (accepts c) end;
    intros H; inversion H; reflexivity.
Qed.

Lemma write_same (fs : fsys) (p : path) (f : file) : write fs p f p = Some f.
Proof. unfold write. rewrite String.eqb_refl. reflexivity. Qed.

Lemma write_other (fs : fsys) (p r : path) (f : file) : r <> p -> write fs p f r = fs r.
Proof. intros H. unfold write. apply String.eqb_neq in H. rewrite H. reflexivity. Qed.

(** When [generate_pdf] returns a path, it is the requested path (or the
    temporary one it created), and that path holds either the document or
    the two-line error document. *)
Theorem generate_pdf_returns_written_path (accepts : cmd -> bool) (dest_ok : path -> bool)
    (content_ok : doc -> bool) (mkstemp : fsys -> path)
    (self_pdf : doc) (output_path : option path) (fs fs' : fsys) (q : path) :
  generate_pdf accepts dest_ok content_ok mkstemp self_pdf output_path fs = (Ok q, fs') ->
  q = fst (resolve_path mkstemp output_path fs) /\
  (fs' q = Some (PdfFile self_pdf) \/ fs' q = Some (PdfFile error_doc)).
Proof.
  unfold generate_pdf. destruct (resolve_path mkstemp output_path fs) as [p fs1]. simpl.
  unfold output.
  destruct (dest_ok p).
  - destruct (content_ok self_pdf).
    + intros H. injection H as <- <-. split; [reflexivity | left; apply write_same].
    + destruct (build_error_pdf accepts []) as [[a|e] ed] eqn:Eb; [|intros H; discriminate].
      apply build_error_pdf_doc in Eb. subst ed.
      destruct (content_ok error_doc); [|intros H; discriminate].
      intros H. injection H as <- <-. split; [reflexivity | right; apply write_same].
  - destruct (build_error_pdf accepts []) as [[a|e] ed]; intros H; discriminate.
Qed.

(** [generate_pdf] changes no file but the one at the path it resolves,
    whatever happens. *)
Theorem generate_pdf_other_files (accepts : cmd -> bool) (dest_ok : path -> bool)
    (content_ok : doc -> bool) (mkstemp : fsys -> path)
    (self_pdf : doc) (output_path : option path) (fs : fsys) (r : path) :
  r <> fst (resolve_path mkstemp output_path fs) ->
  snd (generate_pdf accepts dest_ok content_ok mkstemp self_pdf output_path fs) r = fs r.
Proof.
  intros Hr.
  assert (H1 : snd (resolve_path mkstemp output_path fs) r = fs r).
  { destruct output_path; simpl in *; [reflexivity | apply write_other, Hr]. }
  unfold generate_pdf. destruct (resolve_path mkstemp output_path fs) as [p fs1].
  simpl in Hr, H1. unfold output.
  destruct (dest_ok p).
  - destruct (content_ok self_pdf); [simpl; rewrite write_other; assumption|].
    destruct (build_error_pdf accepts []) as [[a|e] ed]; [|exact H1].
    destruct (content_ok ed); [simpl; rewrite write_other; assumption | exact H1].
  - destruct (build_error_pdf accepts []) as [[a|e] ed]; exact H1.
Qed.

(** When the destination is writable and the document serialises,
    [generate_pdf] writes it there and returns the path. *)
Theorem generate_pdf_success (accepts : cmd -> bool) (dest_ok : path -> bool)
    (content_ok : doc -> bool) (mkstemp : fsys -> path)
    (self_pdf : doc) (output_path : option path) (fs : fsys) :
  let p := fst (resolve_path mkstemp output_path fs) in
  let fs1 := snd (resolve_path mkstemp output_path fs) in
  dest_ok p = true -> content_ok self_pdf = true ->
  generate_pdf accepts dest_ok content_ok mkstemp self_pdf output_path fs =
  (Ok p, write fs1 p (PdfFile self_pdf)).
Proof.
  unfold generate_pdf. destruct (resolve_path mkstemp output_path fs) as [p fs1]. simpl.
  intros Hd Hc. unfold output. rewrite Hd, Hc. reflexivity.
Qed.

(** ** [posixpath.splitext] for the download name *)

Lemma rfind_from_spec (c : N) (p : text) : forall i best,
  (~ In c p /\ rfind_from c p i best = best) \/
  (exists a b, p = a ++ c :: b /\ ~ In c b /\ rfind_from c p i best = (i + Z.of_nat (List.length a))%Z).
Proof.
  induction p as [|x p IH]; intros i best; cbn [rfind_from In].
  - left. split; [intros [] | reflexivity].
  - destruct (IH (i + 1)%Z (if x =? c then i else best)) as [[Hn Hr]|[a [b [Hp [Hb Hr]]]]].
    + rewrite Hr. destruct (N.eqb_spec x c) as [E|E].
      * right. exists [], p. subst x. split; [reflexivity|]. split; [exact Hn|].
        simpl. lia.
      * left. split; [intros [H|H]; [exact (E H) | exact (Hn H)] | reflexivity].
    + rewrite Hr. right. exists (x :: a), b. split; [rewrite Hp; reflexivity|].
      split; [exact Hb|]. cbn [List.length]. rewrite Nat2Z.inj_succ. lia.
Qed.

Lemma last_occurrence (x : N) (a1 b1 a2 b2 : text) :
  a1 ++ x :: b1 = a2 ++ x :: b2 -> ~ In x b1 -> (List.length a2 <= List.length a1)%nat.
Proof.
  intros E Hn. apply app_eq_app in E as [l [[-> _]|[-> E]]].
  - rewrite length_app. lia.
  - destruct l as [|y l]; [rewrite app_nil_r; lia|].
    injection E as -> E. exfalso. apply Hn. rewrite E. apply in_or_app. right. left. reflexivity.
Qed.

Lemma firstn_length_app (a l : text) : firstn (List.length a) (a ++ l) = a.
Proof. induction a as [|x a IH]; simpl; [reflexivity | rewrite IH; reflexivity]. Qed.

Lemma skipn_length_app (a l : text) : skipn (List.length a) (a ++ l) = l.
Proof. induction a as [|x a IH]; simpl; [reflexivity | exact IH]. Qed.

(** [os.path.splitext] splits a name into a root and an extension that
    concatenate back to it; the extension is empty or a dot followed by
    text with no dot and no slash. *)
Theorem splitext_parts (p : text) :
  fst (splitext p) ++ snd (splitext p) = p /\
  (snd (splitext p) = [] \/
   exists e, snd (splitext p) = 46 :: e /\ ~ In 46 e /\ ~ In 47 e).
Proof.
  unfold splitext, rfind.
  destruct (rfind_from_spec 47 p 0 (-1)) as [[Hs Es]|[a' [b' [Hps [Hs Es]]]]];
  destruct (rfind_from_spec 46 p 0 (-1)) as [[Hd Ed]|[a [b [Hpd [Hd Ed]]]]];
  rewrite Es, Ed; rewrite ?Z.add_0_l;
  match goal with |- context [(?x <? ?y)%Z] => destruct (Z.ltb_spec x y) as [Hlt|Hlt] end;
  try lia;
  try (simpl; rewrite app_nil_r; split; [reflexivity | left; reflexivity]);
  (match goal with |- context [existsb ?f ?l] => destruct (existsb f l) end;
   [|simpl; rewrite app_nil_r; split; [reflexivity | left; reflexivity]]);
  simpl; rewrite Nat2Z.id, Hpd, firstn_length_app, skipn_length_app;
  (split; [reflexivity|]); right; exists b; (split; [reflexivity|]); (split; [exact Hd|]).
  - intros Hin. apply Hs. rewrite Hpd. apply in_or_app. right. right. exact Hin.
  - intros Hin. apply in_split in Hin as [b1 [b2 ->]].
    assert (E : a' ++ 47 :: b' = (a ++ 46 :: b1) ++ 47 :: b2)
      by (rewrite <- Hps, Hpd, <- app_assoc; reflexivity).
    pose proof (last_occurrence _ _ _ _ _ E Hs) as Hle.
    rewrite length_app in Hle. simpl in Hle. lia.
Qed.

(** ** [sanitize_text] on ASCII input *)

Lemma startswith_split (s k : text) :
  startswith s k = true -> s = k ++ skipn (List.length k) s.
Proof.
  revert s. induction k as [|c k IH]; intros s H; [reflexivity|].
  destruct s as [|d s]; [discriminate|].
  simpl in H. apply andb_prop in H as [E H]. apply N.eqb_eq in E. subst d.
  simpl. f_equal. apply IH, H.
Qed.

Lemma replace_fuel_absent (f : nat) (k new s : text) :
  occurs k s = false -> replace_fuel f k new s = s.
Proof.
  revert s. induction f as [|f IH]; intros s H; [reflexivity|].
  destruct s as [|c s]; [reflexivity|].
  cbn [occurs] in H. apply orb_false_elim in H as [H1 H2].
  cbn [replace_fuel]. rewrite H1. f_equal. apply IH, H2.
Qed.

Lemma replace_fuel_self (f : nat) (k s : text) : replace_fuel f k k s = s.
Proof.
  revert s. induction f as [|f IH]; intros s; [reflexivity|].
  destruct s as [|c s]; [reflexivity|].
  cbn [replace_fuel]. destruct (startswith (c :: s) k) eqn:E.
  - rewrite IH. symmetry. apply startswith_split, E.
  - rewrite IH. reflexivity.
Qed.

Lemma py_replace_absent (k new s : text) :
  k <> [] -> occurs k s = false -> py_replace k new s = s.
Proof.
  intros Hk H. unfold py_replace. destruct k; [contradiction|]. apply replace_fuel_absent, H.
Qed.

Lemma py_replace_self (k s : text) : k <> [] -> py_replace k k s = s.
Proof. intros Hk. unfold py_replace. destruct k; [contradiction|]. apply replace_fuel_self. Qed.

Lemma occurs_single (c : N) (s : text) : 128 <= c -> is_ascii s -> occurs [c] s = false.
Proof.
  intros Hc Hs. induction Hs as [|d s Hd _ IH]; [reflexivity|].
  cbn [occurs startswith]. rewrite IH. destruct (c =? d) eqn:E; [|reflexivity].
  apply N.eqb_eq in E. lia.
Qed.

Lemma fold_replace_id (table : list (text * text)) (s : text) :
  (forall kv, In kv table -> py_replace (fst kv) (snd kv) s = s) ->
  fold_left (fun t kv => py_replace (fst kv) (snd kv) t) table s = s.
Proof.
  induction table as [|kv table IH]; intros H; [reflexivity|].
  simpl. rewrite (H kv (or_introl eq_refl)). apply IH. intros kv' Hin. apply H. right. exact Hin.
Qed.

Lemma replace_known_ascii (s : text) :
  is_ascii s -> occurs smart_quote_key s = false -> replace_known s = s.
Proof.
  intros Ha Hk. unfold replace_known. apply fold_replace_id.
  intros kv Hin. unfold char_replacements in Hin. cbn [In] in Hin.
  repeat destruct Hin as [<- | Hin]; try contradiction; cbn [fst snd];
    first [ apply py_replace_self; discriminate
          | apply py_replace_absent; [unfold smart_quote_key; discriminate | exact Hk]
          | apply py_replace_absent; [discriminate | apply occurs_single; [lia | exact Ha]] ].
Qed.

Lemma flat_map_sanitize_char_ascii (s : text) : is_ascii s -> flat_map sanitize_char s = s.
Proof.
  intros Ha. induction Ha as [|c s Hc _ IH]; [reflexivity|].
  cbn [flat_map]. rewrite IH. unfold sanitize_char. apply N.ltb_lt in Hc. rewrite Hc. reflexivity.
Qed.

(** [sanitize_text] returns an ASCII text unchanged unless the text
    contains the table key [smart_quote_key]. *)
Theorem sanitize_text_ascii_fixed (s : text) :
  is_ascii s -> occurs smart_quote_key s = false -> sanitize_text s = s.
Proof.
  intros Ha Hk. unfold sanitize_text. rewrite replace_known_ascii by assumption.
  apply flat_map_sanitize_char_ascii, Ha.
Qed.

(** * Witnesses for the further properties *)

Lemma extract_blank_input_witness :
  forallb blank_line (split_nl (s2t " " ++ nl ++ s2t "  ")) = true /\
  extract_structure (s2t " " ++ nl ++ s2t "  ") = empty_structure.
Proof.
  split; [vm_compute; reflexivity|].
  apply extract_blank_input. vm_compute. reflexivity.
Defined.

Lemma add_list_isolated_witness :
  add_list refuses_bad [s2t "ok"; s2t "bad"] [] =
  (Ok tt, [] ++ list_cmds_b refuses_bad [s2t "ok"; s2t "bad"]).
Proof.
  apply add_list_isolated;
    first [ reflexivity | intros c Hc; destruct c; first [reflexivity | discriminate]
          | intros l; reflexivity ].
Defined.

Lemma add_content_isolated_witness :
  let st := {| headings := [{| h_level := 1; h_text := s2t "bad" |}];
               paragraphs := [s2t "bad"]; lists := [[s2t "bad"; s2t "ok"]] |} in
  add_content_from_structure refuses_bad st [] =
  (Ok tt, [] ++ flat_map (heading_cmds_b refuses_bad) (headings st) ++
                flat_map (paragraph_cmds_b refuses_bad) (paragraphs st) ++
                flat_map (list_cmds_b refuses_bad) (lists st)).
Proof.
  intros st. apply add_content_isolated;
    first [ reflexivity | intros c Hc; destruct c; first [reflexivity | discriminate]
          | intros l; reflexivity ].
Defined.

Lemma build_document_never_raises_witness :
  fst (build_document refuses_bad true (s2t "# bad" ++ nl ++ s2t "- bad") []) = Ok tt /\
  fst (build_document refuses_bad false (s2t "bad") []) = Ok tt.
Proof.
  split; apply build_document_never_raises;
    first [ reflexivity | intros c Hc; destruct c; first [reflexivity | discriminate]
          | intros l; reflexivity ].
Defined.

Lemma generate_pdf_returns_written_path_witness :
  generate_pdf (fun _ => true) (fun p => String.eqb p "out.pdf"%string)
    (fun d => Nat.eqb (List.length d) 4) (fun _ => "tmp.pdf"%string)
    [AddPage] (Some "out.pdf"%string) no_files =
  (Ok "out.pdf"%string, write no_files "out.pdf"%string (PdfFile error_doc)) /\
  ("out.pdf"%string = fst (resolve_path (fun _ => "tmp.pdf"%string) (Some "out.pdf"%string) no_files) /\
   (write no_files "out.pdf"%string (PdfFile error_doc) "out.pdf"%string = Some (PdfFile [AddPage]) \/
    write no_files "out.pdf"%string (PdfFile error_doc) "out.pdf"%string = Some (PdfFile error_doc))).
Proof.
  split; [reflexivity|].
  apply (generate_pdf_returns_written_path (fun _ => true) (fun p => String.eqb p "out.pdf"%string)
    (fun d => Nat.eqb (List.length d) 4) (fun _ => "tmp.pdf"%string)
    [AddPage] (Some "out.pdf"%string) no_files
    (write no_files "out.pdf"%string (PdfFile error_doc)) "out.pdf"%string).
  reflexivity.
Defined.

Lemma generate_pdf_other_files_witness :
  "other.pdf"%string <> fst (resolve_path (fun _ => "tmp.pdf"%string) None no_files) /\
  snd (generate_pdf (fun _ => true) (fun p => String.eqb p "out.pdf"%string)
         (fun d => Nat.eqb (List.length d) 4) (fun _ => "tmp.pdf"%string)
         [AddPage] None no_files) "other.pdf"%string = no_files "other.pdf"%string.
Proof.
  split; [simpl; discriminate|].
  apply generate_pdf_other_files. simpl. discriminate.
Defined.

Lemma generate_pdf_success_witness :
  generate_pdf (fun _ => true) (fun p => String.eqb p "out.pdf"%string)
    (fun d => Nat.eqb (List.length d) 4) (fun _ => "tmp.pdf"%string)
    [AddPage; AddPage; AddPage; AddPage] (Some "out.pdf"%string) no_files =
  (Ok "out.pdf"%string, write no_files "out.pdf"%string (PdfFile [AddPage; AddPage; AddPage; AddPage])).
Proof.
  exact (generate_pdf_success (fun _ => true) (fun p => String.eqb p "out.pdf"%string)
    (fun d => Nat.eqb (List.length d) 4) (fun _ => "tmp.pdf"%string)
    [AddPage; AddPage; AddPage; AddPage] (Some "out.pdf"%string) no_files eq_refl eq_refl).
Defined.

Lemma sanitize_text_ascii_fixed_witness :
  is_ascii (s2t "a - b") /\ occurs smart_quote_key (s2t "a - b") = false /\
  sanitize_text (s2t "a - b") = s2t "a - b".
Proof.
  assert (Ha : is_ascii (s2t "a - b")) by (repeat constructor; vm_compute; reflexivity).
  assert (Hk : occurs smart_quote_key (s2t "a - b") = false) by (vm_compute; reflexivity).
  split; [exact Ha | split; [exact Hk | apply sanitize_text_ascii_fixed; assumption]].
Defined.
